(** * A leveled logger over log/slog: shallow embedding of package [log]

    The package wraps a [*slog.Logger] built on a JSON handler and a shared
    [*slog.LevelVar].  The embedding keeps the two heaps the package
    allocates in (level variables and [SlogLogger] structs), so that pointer
    identity and aliasing are visible, and threads a world through every
    call.  A world also carries the history of the calls made to the
    collaborators of the package ([fmt.Sprintf], [runtime.Callers],
    [time.Now], [slog.NewRecord], [Handler.Handle], the write to
    [os.Stdout]). *)

From Stdlib Require Import ZArith String List Lia DecimalString.
From stdpp Require Import gmap strings list.

Open Scope Z_scope.

(** ** Go values *)

(** Heap addresses.  A pointer that is nil or dangling is an address outside
    the domain of its heap: dereferencing it panics. *)
Definition loc := positive.

(** The dynamic values ([any]) the package passes around: logging
    arguments, attribute values, context keys and context values.
    [slog.Level] is [int]; the package compares levels, and [Level.String]
    subtracts from a level only the named level just below it, so no
    operation can overflow and [Z] needs no wrap-around.

    Two kinds of logging argument are outside this type: group values
    ([slog.Group], [[]slog.Attr]), whose members the handler hands to
    [ReplaceAttr] in place of the group, and [LogValuer]s, which the
    handler first resolves through a method of the caller.  What is proved
    of the written line and of the panic of [ReplaceAttr] is proved for
    calls whose arguments are of the kinds listed here. *)
Inductive any : Type :=
| AnyNil
| AnyString (s : string)
| AnyInt (n : Z)
| AnyBool (b : bool)
| AnyLevel (lv : Z)                 (* slog.Level *)
| AnyTime (t : Z)                   (* time.Time *)
| AnySource (pc : option string)    (* *slog.Source, from a program counter *)
| AnyLogContextKey (k : Z)          (* logContextKey *)
| AnySlogLogger (p : loc)           (* *SlogLogger *)
| AnyAttr (key : string) (v : any). (* slog.Attr *)

#[global] Instance any_eq_dec : EqDecision any.
Proof. solve_decision. Defined.

(** A Go [error] value, by its message. *)
Definition error := string.

(** ** package context *)
Module context.

(** Non-nil contexts: the background context and the value contexts
    derived from it.  A nil [context.Context] is [None] at the call
    sites that accept one. *)
Inductive Context : Type :=
| Background
| valueCtx (parent : Context) (key val : any).

(** [c.Value(key)]: the innermost binding of [key], nil when there is
    none.  Keys are compared as interface values, so a key of type
    [logContextKey] never equals an [int] or a [string]. *)
Fixpoint Value (c : Context) (key : any) : any :=
  match c with
  | Background => AnyNil
  | valueCtx parent k v => if decide (k = key) then v else Value parent key
  end.

End context.

(** ** package slog *)
Module slog.

Definition Level := Z.

Definition LevelDebug : Level := -4.
Definition LevelInfo : Level := 0.
Definition LevelWarn : Level := 4.
Definition LevelError : Level := 8.

Definition TimeKey : string := "time".
Definition LevelKey : string := "level".
Definition MessageKey : string := "msg".
Definition SourceKey : string := "source".
Definition badKey : string := "!BADKEY".

(** [fmt.Sprintf("%s%+d", base, val)] *)
Definition str_plus_d (base : string) (val : Z) : string :=
  base +:+ (if 0 <=? val then "+" else "") +:+ NilZero.string_of_int (Z.to_int val).

(** [Level.String] *)
Definition Level_String (l : Level) : string :=
  let str (base : string) (val : Z) :=
    if val =? 0 then base else str_plus_d base val in
  if l <? LevelInfo then str "DEBUG" (l - LevelDebug)
  else if l <? LevelWarn then str "INFO" (l - LevelInfo)
  else if l <? LevelError then str "WARN" (l - LevelWarn)
  else str "ERROR" (l - LevelError).

(** [slog.Attr].  A [slog.Value] is represented by the Go value it
    carries, so [Value.Any] is the identity. *)
Record Attr : Type := mkAttr { Key : string; Value : any }.

Definition StringValue (s : string) : any := AnyString s.
Definition String_ (key value : string) : Attr := mkAttr key (StringValue value).
Definition Any (key : string) (value : any) : Attr := mkAttr key value.
Definition Time (key : string) (t : Z) : Attr := mkAttr key (AnyTime t).

(** [Attr.isEmpty] *)
Definition Attr_isEmpty (a : Attr) : bool :=
  (Key a =? "")%string && bool_decide (Value a = AnyNil).

(** [Record.Add] with [argsToAttr]: a string followed by a value is a
    key-value pair, an [Attr] stands for itself, anything else is filed
    under [badKey]. *)
Fixpoint argsToAttrs (args : list any) : list Attr :=
  match args with
  | [] => []
  | AnyString x :: [] => [String_ badKey x]
  | AnyString x :: v :: rest => Any x v :: argsToAttrs rest
  | AnyAttr k v :: rest => mkAttr k v :: argsToAttrs rest
  | x :: rest => Any badKey x :: argsToAttrs rest
  end.

(** [slog.Record].  The time is counted from Go's zero time, so [IsZero]
    is equality with 0; [PC] is [None] for the zero program counter. *)
Record Record_ : Type := mkRecord {
  Record_Time : Z;
  Record_Message : string;
  Record_Level : Level;
  Record_PC : option string;
  Record_attrs : list Attr
}.

Definition NewRecord (t : Z) (level : Level) (msg : string) (pc : option string) : Record_ :=
  mkRecord t msg level pc [].

Definition Record_Add (r : Record_) (args : list any) : Record_ :=
  mkRecord (Record_Time r) (Record_Message r) (Record_Level r) (Record_PC r)
    (Record_attrs r ++ argsToAttrs args).

(** A [Leveler]: a constant level or a pointer to a [LevelVar]. *)
Inductive Leveler : Type :=
| LevelerConst (l : Level)
| LevelerVar (p : loc).

(** [slog.HandlerOptions].  [ReplaceAttr] returns [None] when the
    function panics. *)
Record HandlerOptions : Type := mkHandlerOptions {
  opt_AddSource : bool;
  opt_Level : option Leveler;
  opt_ReplaceAttr : option (list string -> Attr -> option Attr)
}.

(** [*slog.JSONHandler] writing to [os.Stdout], and [*slog.Logger].  Both
    are immutable once built, so they are kept by value. *)
Record JSONHandler : Type := NewJSONHandler { opts : HandlerOptions }.
Record Logger : Type := New { Handler : JSONHandler }.

End slog.

(** ** package log: data *)

Definition Level := slog.Level.

Definition LevelDebug : Level := slog.LevelDebug. (* -4 *)
Definition LevelTrace : Level := -2.
Definition LevelInfo : Level := slog.LevelInfo.   (*  0 *)
Definition LevelWarn : Level := slog.LevelWarn.   (*  4 *)
Definition LevelError : Level := slog.LevelError. (*  8 *)

Definition LevelIn : list Level :=
  [LevelDebug; LevelTrace; LevelInfo; LevelWarn; LevelError].

(** [defaultLogContextKey logContextKey = iota] *)
Definition defaultLogContextKey : any := AnyLogContextKey 0.

(** [type SlogLogger struct { l *slog.Logger; lvl *slog.LevelVar }] *)
Record SlogLogger : Type := mkSlogLogger {
  SlogLogger_l : slog.Logger;
  SlogLogger_lvl : loc
}.

(** ** Worlds *)

(** A stack frame, by the name of its function; a call stack lists the
    innermost frame first. *)
Definition Frame := string.

(** Calls to the collaborators, in the order they were made. *)
Inductive Event : Type :=
| EvSprintf (format : string) (args : list any)
| EvCallers (skip : nat) (pc : option Frame)
| EvNow (t : Z)
| EvNewRecord (r : slog.Record_)
| EvHandle (ctx : context.Context) (r : slog.Record_)
| EvWrite (line : list slog.Attr) (err : option error).

Record World : Type := mkWorld {
  levelVars : gmap loc Level;       (* the slog.LevelVar objects *)
  loggers : gmap loc SlogLogger;    (* the SlogLogger structs *)
  trace : list Event
}.

Definition emptyWorld : World := mkWorld ∅ ∅ [].

(** What the package cannot decide: the text [fmt.Sprintf] builds, the
    reading of the wall clock and the outcome of a write to [os.Stdout],
    each as a function of the history so far. *)
Record Env : Type := mkEnv {
  fmt_Sprintf : string -> list any -> string;
  time_Now : list Event -> Z;
  Stdout_Write : list Event -> list slog.Attr -> option error
}.

(** A call returns a value and a world, or panics in a world. *)
Inductive Outcome (A : Type) : Type :=
| Ret (a : A) (w : World)
| Panic (w : World).
Arguments Ret {A} a w.
Arguments Panic {A} w.

Definition M (A : Type) : Type := World -> Outcome A.

Definition ret {A : Type} (a : A) : M A := fun w => Ret a w.

Definition bind {A B : Type} (m : M A) (k : A -> M B) : M B :=
  fun w => match m w with
           | Ret a w' => k a w'
           | Panic w' => Panic w'
           end.

Definition panic {A : Type} : M A := fun w => Panic w.

Declare Scope go_scope.
Delimit Scope go_scope with go.
Notation "x <- m ;; k" := (bind m (fun x => k))
  (at level 100, m at next level, right associativity) : go_scope.
Notation "m ;;; k" := (bind m (fun _ => k))
  (at level 100, right associativity) : go_scope.
Open Scope go_scope.

Definition world_of {A : Type} (o : Outcome A) : World :=
  match o with Ret _ w => w | Panic w => w end.

Definition emit (e : Event) : M unit :=
  fun w => Ret tt (mkWorld (levelVars w) (loggers w) (trace w ++ [e])).

Definition history : M (list Event) := fun w => Ret (trace w) w.

(** Dereference of a [*SlogLogger]. *)
Definition load (p : loc) : M SlogLogger :=
  fun w => match loggers w !! p with
           | Some s => Ret s w
           | None => Panic w
           end.

(** [&SlogLogger{...}]: a struct at a fresh address. *)
Definition alloc (s : SlogLogger) : M loc :=
  fun w => let p := fresh (dom (loggers w)) in
           Ret p (mkWorld (levelVars w) (<[p := s]> (loggers w)) (trace w)).

(** ** package slog: operations on the world *)

(** [var lvl slog.LevelVar]: a zero level variable at a fresh address. *)
Definition LevelVar_new : M loc :=
  fun w => let p := fresh (dom (levelVars w)) in
           Ret p (mkWorld (<[p := 0]> (levelVars w)) (loggers w) (trace w)).

(** [LevelVar.Set], on a pointer *)
Definition LevelVar_Set (p : loc) (l : Level) : M unit :=
  fun w => match levelVars w !! p with
           | Some _ => Ret tt (mkWorld (<[p := l]> (levelVars w)) (loggers w) (trace w))
           | None => Panic w
           end.

(** [LevelVar.Level], on a pointer *)
Definition LevelVar_Level (p : loc) : M Level :=
  fun w => match levelVars w !! p with
           | Some l => Ret l w
           | None => Panic w
           end.

Definition Leveler_Level (lv : slog.Leveler) : M Level :=
  match lv with
  | slog.LevelerConst l => ret l
  | slog.LevelerVar p => LevelVar_Level p
  end.

(** [commonHandler.enabled]: the minimum level is [LevelInfo] unless the
    options name a [Leveler]. *)
Definition commonHandler_enabled (h : slog.JSONHandler) (l : Level) : M bool :=
  minLevel <- match slog.opt_Level (slog.opts h) with
              | Some lv => Leveler_Level lv
              | None => ret slog.LevelInfo
              end ;;
  ret (minLevel <=? l).

(** [Logger.Enabled]: a nil context is replaced by the background
    context, which the JSON handler ignores. *)
Definition Logger_Enabled (sl : slog.Logger) (ctx : option context.Context) (level : Level) : M bool :=
  let ctx := match ctx with Some c => c | None => context.Background end in
  commonHandler_enabled (slog.Handler sl) level.

(** What [handleState.appendAttr] writes for an attribute once it is
    through [ReplaceAttr].  An empty attribute is elided.  The JSON handler
    turns a [*Source] into the group of its function, file and line, and
    writes no group without members: the [Source] of a zero program
    counter has none and is elided; any other is written, and the line
    keeps it as the [Source] it stands for. *)
Definition appendAttr_out (a : slog.Attr) : list slog.Attr :=
  if slog.Attr_isEmpty a then []
  else match slog.Value a with
       | AnySource None => []
       | _ => [a]
       end.

(** [handleState.appendAttr]: the attribute goes through [ReplaceAttr]
    when the options carry one.  [None] when [ReplaceAttr] panics. *)
Definition appendAttr (h : slog.JSONHandler) (groups : list string) (a : slog.Attr)
  : option (list slog.Attr) :=
  match slog.opt_ReplaceAttr (slog.opts h) with
  | Some rep =>
      match rep groups a with
      | Some a' => Some (appendAttr_out a')
      | None => None
      end
  | None => Some (appendAttr_out a)
  end.

(** [handleState.appendNonBuiltIns], for a handler without groups. *)
Fixpoint appendAttrs (h : slog.JSONHandler) (l : list slog.Attr) : option (list slog.Attr) :=
  match l with
  | [] => Some []
  | a :: rest =>
      match appendAttr h [] a with
      | Some out =>
          match appendAttrs h rest with
          | Some outs => Some (out ++ outs)
          | None => None
          end
      | None => None
      end
  end.

(** [commonHandler.handle] up to the write: the members of the JSON
    object, in order.  The built-in attributes time, level, source and msg
    come first; each is handed to [ReplaceAttr] when there is one.  The
    source member is left out when the record has no program counter. *)
Definition commonHandler_line (h : slog.JSONHandler) (r : slog.Record_)
  : option (list slog.Attr) :=
  let rep := slog.opt_ReplaceAttr (slog.opts h) in
  let builtin (plain : slog.Attr) (a : slog.Attr) :=
    match rep with
    | None => Some [plain]
    | Some _ => appendAttr h [] a
    end in
  let time :=
    if slog.Record_Time r =? 0 then Some []
    else builtin (slog.Time slog.TimeKey (slog.Record_Time r))
                 (slog.Time slog.TimeKey (slog.Record_Time r)) in
  let level :=
    builtin (slog.String_ slog.LevelKey (slog.Level_String (slog.Record_Level r)))
            (slog.Any slog.LevelKey (AnyLevel (slog.Record_Level r))) in
  let source :=
    if slog.opt_AddSource (slog.opts h)
    then appendAttr h [] (slog.Any slog.SourceKey (AnySource (slog.Record_PC r)))
    else Some [] in
  let msg :=
    builtin (slog.String_ slog.MessageKey (slog.Record_Message r))
            (slog.String_ slog.MessageKey (slog.Record_Message r)) in
  match time, level, source, msg, appendAttrs h (slog.Record_attrs r) with
  | Some t, Some l, Some s, Some m, Some rest => Some (t ++ l ++ s ++ m ++ rest)
  | _, _, _, _, _ => None
  end.

(** [context.WithValue]: panics ([None]) on a nil parent and on a nil key. *)
Definition context_WithValue (parent : option context.Context) (key val : any)
  : option context.Context :=
  match parent with
  | None => None
  | Some p => if decide (key = AnyNil) then None else Some (context.valueCtx p key val)
  end.

Definition lift {A : Type} (o : option A) : M A :=
  match o with
  | Some a => ret a
  | None => panic
  end.

(** [runtime.Callers(skip, pcs[:])] for a one-element [pcs], called with
    [stk] the stack of the calling function: frame 0 is [Callers] itself,
    frame 1 its caller.  The program counter is zero ([None]) when the
    stack is not that deep. *)
Definition frame_Callers : Frame := "runtime.Callers".

Definition runtime_Callers (skip : nat) (stk : list Frame) : M (option Frame) :=
  let pc := nth_error (frame_Callers :: stk) skip in
  emit (EvCallers skip pc) ;;; ret pc.

(** ** package log: operations *)

Definition frame_log : Frame := "log.SlogLogger.log".
Definition frame_Log : Frame := "log.SlogLogger.Log".
Definition frame_Info : Frame := "log.SlogLogger.Info".
Definition frame_Infof : Frame := "log.SlogLogger.Infof".
Definition frame_InfoContext : Frame := "log.SlogLogger.InfoContext".
Definition frame_Trace : Frame := "log.SlogLogger.Trace".
Definition frame_Warn : Frame := "log.SlogLogger.Warn".
Definition frame_Error : Frame := "log.SlogLogger.Error".

(** The [ReplaceAttr] function [New] installs.  The type assertion
    [a.Value.Any().(slog.Level)] panics on any other value. *)
Definition ReplaceAttr (groups : list string) (a : slog.Attr) : option slog.Attr :=
  if (slog.Key a =? slog.LevelKey)%string then
    match slog.Value a with
    | AnyLevel level =>
        let levelLabel := slog.Level_String level in
        let levelLabel := if level =? LevelTrace then "TRACE"%string else levelLabel in
        Some (slog.mkAttr (slog.Key a) (slog.StringValue levelLabel))
    | _ => None
    end
  else Some a.

(** The handler options of [New], for the level variable at [lvl]. *)
Definition New_options (lvl : loc) : slog.HandlerOptions :=
  slog.mkHandlerOptions true (Some (slog.LevelerVar lvl)) (Some ReplaceAttr).

Definition New (level : Level) : M loc :=
  lvl <- LevelVar_new ;;
  (LevelVar_Set lvl level ;;;
   let sl := slog.New (slog.NewJSONHandler (New_options lvl)) in
   alloc (mkSlogLogger sl lvl)).

Definition SetLevel (l : loc) (level : Level) : M unit :=
  s <- load l ;;
  LevelVar_Set (SlogLogger_lvl s) level.

Definition Enabled (l : loc) : M bool :=
  s <- load l ;;
  lv <- LevelVar_Level (SlogLogger_lvl s) ;;
  Logger_Enabled (SlogLogger_l s) (Some context.Background) lv.

(** The loop of [GetLogLevel]: the first enabled level ends it. *)
Fixpoint GetLogLevel_loop (l : loc) (levels : list Level) (currentLevel : Level) : M Level :=
  match levels with
  | [] => ret currentLevel
  | level :: rest =>
      s <- load l ;;
      r <- Logger_Enabled (SlogLogger_l s) (Some context.Background) level ;;
      if r then ret level else GetLogLevel_loop l rest currentLevel
  end.

Definition GetLogLevel (l : loc) : M Level :=
  GetLogLevel_loop l LevelIn (-10).

Definition WithContext (l : loc) (ctx : option context.Context) : M context.Context :=
  lift (context_WithValue ctx defaultLogContextKey (AnySlogLogger l)).

(** [c := *l; return &c] *)
Definition clone (l : loc) : M loc :=
  c <- load l ;;
  alloc c.

(** ** package log: the no-op logger *)

(** [noopInfoLogger].  Its methods have empty bodies and never read the
    receiver, a pointer to an empty struct, so the receiver is left out. *)
Definition noopInfoLogger_Enabled : M bool := ret false.

Definition noopInfoLogger_Info (ctx : option context.Context) (msg : string)
    (args : list any) : M unit := ret tt.

Definition noopInfoLogger_Infof (ctx : option context.Context) (format : string)
    (args : list any) : M unit := ret tt.

Definition noopInfoLogger_Infow (ctx : option context.Context) (msg : string)
    (args : list any) : M unit := ret tt.

Section Emission.

Variable E : Env.

(** [fmt.Sprintf(format, args...)].  The substitution walks the format
    string and calls the [String], [Error] and [Format] methods of the
    arguments, so that it took place is part of the history. *)
Definition Sprintf (format : string) (args : list any) : M string :=
  emit (EvSprintf format args) ;;; ret (fmt_Sprintf E format args).

(** [time.Now()] *)
Definition Now : M Z :=
  tr <- history ;;
  let t := time_Now E tr in
  (emit (EvNow t) ;;; ret t).

(** [JSONHandler.Handle(ctx, r)]: the line is built, then written to
    [os.Stdout]; the error of the write is the result. *)
Definition JSONHandler_Handle (h : slog.JSONHandler) (ctx : context.Context)
    (r : slog.Record_) : M (option error) :=
  emit (EvHandle ctx r) ;;;
  (line <- lift (commonHandler_line h r) ;;
   tr <- history ;;
   let err := Stdout_Write E tr line in
   (emit (EvWrite line err) ;;; ret err)).

(** [stk] is the call stack of the caller of [log]. *)
Definition log (l : loc) (ctx : option context.Context) (level : Level)
    (msg : string) (args : list any) (stk : list Frame) : M unit :=
  s <- load l ;;
  enabled <- Logger_Enabled (SlogLogger_l s) ctx level ;;
  if negb enabled then ret tt
  else
    pc <- runtime_Callers 4 (frame_log :: stk) ;;
    t <- Now ;;
    let r := slog.NewRecord t level msg pc in
    (emit (EvNewRecord r) ;;;
     let r := slog.Record_Add r args in
     let ctx := match ctx with
                | None => context.Background
                | Some c => c
                end in
     s <- load l ;;
     _ <- JSONHandler_Handle (slog.Handler (SlogLogger_l s)) ctx r ;;
     ret tt).

Definition Log (l : loc) (ctx : option context.Context) (level : Level)
    (msg : string) (args : list any) (stk : list Frame) : M unit :=
  log l ctx level msg args (frame_Log :: stk).

Definition Info (l : loc) (msg : string) (args : list any) (stk : list Frame) : M unit :=
  Log l (Some context.Background) LevelInfo msg args (frame_Info :: stk).

Definition Infof (l : loc) (format : string) (args : list any) (stk : list Frame) : M unit :=
  m <- Sprintf format args ;;
  Log l (Some context.Background) LevelInfo m [] (frame_Infof :: stk).

Definition InfoContext (l : loc) (ctx : option context.Context) (msg : string)
    (args : list any) (stk : list Frame) : M unit :=
  Log l ctx LevelInfo msg args (frame_InfoContext :: stk).

Definition Trace (l : loc) (msg : string) (args : list any) (stk : list Frame) : M unit :=
  Log l (Some context.Background) LevelTrace msg args (frame_Trace :: stk).

Definition Warn (l : loc) (msg : string) (args : list any) (stk : list Frame) : M unit :=
  Log l (Some context.Background) LevelWarn msg args (frame_Warn :: stk).

Definition Error (l : loc) (msg : string) (args : list any) (stk : list Frame) : M unit :=
  Log l (Some context.Background) LevelError msg args (frame_Error :: stk).

End Emission.

(** ** Vocabulary of the properties *)

(** [l] points to a logger as [New] builds it, over the level variable at
    [a], and that variable holds [T].  The fields of [SlogLogger] are not
    exported and nothing in the package assigns them, so the structs [New]
    builds and their copies are the only ones with a level variable. *)
Definition logger_at (w : World) (l a : loc) (T : Level) : Prop :=
  loggers w !! l
    = Some (mkSlogLogger (slog.New (slog.NewJSONHandler (New_options a))) a)
  /\ levelVars w !! a = Some T.

(** The threshold currently set on the logger at [l] is [T]. *)
Definition has_threshold (w : World) (l : loc) (T : Level) : Prop :=
  exists a, logger_at w l a T.

(** The records handed to the handler, the records built and the format
    strings substituted in a history. *)
Definition handled (tr : list Event) : list (context.Context * slog.Record_) :=
  omap (fun e => match e with EvHandle c r => Some (c, r) | _ => None end) tr.

Definition built (tr : list Event) : list slog.Record_ :=
  omap (fun e => match e with EvNewRecord r => Some r | _ => None end) tr.

Definition formatted (tr : list Event) : list (string * list any) :=
  omap (fun e => match e with EvSprintf f a => Some (f, a) | _ => None end) tr.

(** The context a dispatch uses. *)
Definition dispatch_ctx (ctx : option context.Context) : context.Context :=
  match ctx with
  | Some c => c
  | None => context.Background
  end.

(** The program counter [log] captures when called with stack [stk]:
    [Callers] and [log] are frames 0 and 1, so frame 4 is [stk]'s third. *)
Definition captured_pc (stk : list Frame) : option Frame := nth_error stk 2.

(** The record [log] builds in world [w]. *)
Definition record_of (E : Env) (w : World) (level : Level) (msg : string)
    (args : list any) (stk : list Frame) : slog.Record_ :=
  slog.mkRecord
    (time_Now E (trace w ++ [EvCallers 4 (captured_pc stk)]))
    msg level (captured_pc stk) (slog.argsToAttrs args).

(** The history [log] adds up to the dispatch. *)
Definition dispatch_events (E : Env) (w : World) (ctx : option context.Context)
    (level : Level) (msg : string) (args : list any) (stk : list Frame) : list Event :=
  let r := record_of E w level msg args stk in
  [EvCallers 4 (captured_pc stk);
   EvNow (slog.Record_Time r);
   EvNewRecord (slog.NewRecord (slog.Record_Time r) level msg (captured_pc stk));
   EvHandle (dispatch_ctx ctx) r].

Definition add_events (w : World) (evs : list Event) : World :=
  mkWorld (levelVars w) (loggers w) (trace w ++ evs).

(** The label of each named level in the output. *)
Definition named_label (L : Level) : string :=
  if L =? -4 then "DEBUG"
  else if L =? -2 then "TRACE"
  else if L =? 0 then "INFO"
  else if L =? 4 then "WARN"
  else "ERROR".

(** An attribute the [ReplaceAttr] of [New] accepts: its key is not
    "level", or its value is a [slog.Level]. *)
Definition level_attr_ok (a : slog.Attr) : bool :=
  if (slog.Key a =? slog.LevelKey)%string then
    match slog.Value a with
    | AnyLevel _ => true
    | _ => false
    end
  else true.

(** An accepted attribute as it is written: a level under the key "level"
    becomes its label, everything else is written as it is. *)
Definition relabel (a : slog.Attr) : slog.Attr :=
  if (slog.Key a =? slog.LevelKey)%string then
    match slog.Value a with
    | AnyLevel L =>
        slog.String_ slog.LevelKey
          (if L =? LevelTrace then "TRACE"%string else slog.Level_String L)
    | _ => a
    end
  else a.

(** The members of a written line that come from the arguments: empty
    attributes and sources without a program counter are left out. *)
Definition written_attrs (l : list slog.Attr) : list slog.Attr :=
  flat_map (fun a => appendAttr_out (relabel a)) l.

(** The source member of a line, for the captured program counter. *)
Definition source_member (pc : option Frame) : list slog.Attr :=
  match pc with
  | Some f => [slog.Any slog.SourceKey (AnySource (Some f))]
  | None => []
  end.

(** The lowest named level the threshold [T] admits, -10 if none. *)
Definition lowest_named (T : Level) : Level :=
  default (-10) (head (filter (fun L => T <= L) LevelIn)).

(** The state of [w'] is that of [w], with a longer history. *)
Definition extends (w w' : World) : Prop :=
  levelVars w' = levelVars w
  /\ loggers w' = loggers w
  /\ exists evs, trace w' = trace w ++ evs.

(** The lines written to [os.Stdout] and the program counters of the
    records handed to the handler in a history. *)
Definition written (tr : list Event) : list (list slog.Attr) :=
  omap (fun e => match e with EvWrite line _ => Some line | _ => None end) tr.

Definition reported_pcs (tr : list Event) : list (option Frame) :=
  map (fun cr => slog.Record_PC (snd cr)) (handled tr).

Definition panicked {A : Type} (o : Outcome A) : bool :=
  match o with
  | Ret _ _ => false
  | Panic _ => true
  end.

(** The call with outcome [o], made in world [w], reached the handler. *)
Definition dispatched {A : Type} (w : World) (o : Outcome A) : Prop :=
  length (handled (trace (world_of o))) = S (length (handled (trace w))).




(** ** Concrete environments and worlds *)

(** Writes succeed; the clock reads the length of the history. *)
Definition quietEnv : Env :=
  mkEnv (fun format _ => format) (fun tr => Z.of_nat (length tr) + 1) (fun _ _ => None).

(** Every write to [os.Stdout] fails. *)
Definition brokenPipeEnv : Env :=
  mkEnv (fun format _ => format) (fun tr => Z.of_nat (length tr) + 1)
        (fun _ _ => Some "write /dev/stdout: broken pipe"%string).

(** The world after [New(LevelInfo)], resp. [New(LevelWarn)], in the empty
    world; the logger is at address 1. *)
Definition infoWorld : World := world_of (New LevelInfo emptyWorld).
Definition warnWorld : World := world_of (New LevelWarn emptyWorld).

Definition mainStack : list Frame := ["main.run"; "main.main"; "runtime.main"]%string.

(** The world after [New(LevelDebug)] in the empty world. *)
Definition debugWorld : World := world_of (New LevelDebug emptyWorld).

(** ** Basic facts *)

Lemma handled_app (tr1 tr2 : list Event) :
  handled (tr1 ++ tr2) = handled tr1 ++ handled tr2.
Proof. unfold handled. apply omap_app. Qed.

Lemma load_logger_at (w : World) (l a : loc) (T : Level) :
  logger_at w l a T ->
  load l w = Ret (mkSlogLogger (slog.New (slog.NewJSONHandler (New_options a))) a) w.
Proof. intros [Hl _]. unfold load. now rewrite Hl. Qed.

(** The gate of a logger built by [New] compares the level with the
    content of its level variable. *)
Lemma gate_logger_at (w : World) (l a : loc) (T : Level)
    (ctx : option context.Context) (L : Level) :
  logger_at w l a T ->
  Logger_Enabled (slog.New (slog.NewJSONHandler (New_options a))) ctx L w
  = Ret (T <=? L) w.
Proof.
  intros [_ Ha].
  unfold Logger_Enabled, commonHandler_enabled, bind; cbn.
  unfold LevelVar_Level. now rewrite Ha.
Qed.

Lemma logger_at_add_events (w : World) (l a : loc) (T : Level) (evs : list Event) :
  logger_at w l a T -> logger_at (add_events w evs) l a T.
Proof. intros H. exact H. Qed.

(** [New] returns a fresh logger whose threshold is the requested level. *)
Lemma New_has_threshold (w : World) (level : Level) :
  exists l w', New level w = Ret l w'
    /\ loggers w !! l = None
    /\ has_threshold w' l level
    /\ trace w' = trace w.
Proof.
  set (a := fresh (dom (levelVars w))).
  set (l := fresh (dom (loggers w))).
  exists l. eexists.
  unfold New, bind, LevelVar_new, LevelVar_Set, alloc; cbn.
  rewrite lookup_insert_eq. cbn. fold a. fold l.
  split; [reflexivity|].
  split.
  - apply not_elem_of_dom. apply is_fresh.
  - split; [|reflexivity]. exists a. split; cbn.
    + apply lookup_insert_eq.
    + apply lookup_insert_eq.
Qed.

(** What [log] does when the level is disabled, and when it is enabled. *)
Lemma log_disabled (E : Env) (w : World) (l a : loc) (T L : Level)
    (ctx : option context.Context) (msg : string) (args : list any) (stk : list Frame) :
  logger_at w l a T -> L < T ->
  log E l ctx L msg args stk w = Ret tt w.
Proof.
  intros H HL. unfold log, bind.
  rewrite (load_logger_at _ _ _ _ H); cbn [SlogLogger_l].
  rewrite (gate_logger_at _ _ _ _ ctx L H).
  assert ((T <=? L) = false) as -> by lia. reflexivity.
Qed.

Lemma log_enabled (E : Env) (w : World) (l a : loc) (T L : Level)
    (ctx : option context.Context) (msg : string) (args : list any) (stk : list Frame) :
  logger_at w l a T -> T <= L ->
  let w1 := add_events w (dispatch_events E w ctx L msg args stk) in
  log E l ctx L msg args stk w =
  match commonHandler_line (slog.NewJSONHandler (New_options a))
                           (record_of E w L msg args stk) with
  | Some line =>
      Ret tt (add_events w1 [EvWrite line (Stdout_Write E (trace w1) line)])
  | None => Panic w1
  end.
Proof.
  intros H HL w1. unfold log, bind.
  rewrite (load_logger_at _ _ _ _ H); cbn [SlogLogger_l].
  rewrite (gate_logger_at _ _ _ _ ctx L H).
  assert ((T <=? L) = true) as -> by lia. cbn [negb].
  destruct H as [Hl Ha].
  unfold runtime_Callers, Now, JSONHandler_Handle, history, emit, load, bind, ret, lift; cbn.
  rewrite Hl; cbn.
  unfold w1, add_events, dispatch_events, record_of, captured_pc, slog.Record_Add, slog.NewRecord; cbn.
  rewrite <- !app_assoc; cbn.
  destruct (commonHandler_line _ _) as [line|]; cbn.
  - unfold ret, panic. rewrite <- !app_assoc; cbn. reflexivity.
  - reflexivity.
Qed.

(** The probe of [GetLogLevel] across thresholds around the named levels. *)
Example GetLogLevel_table :
  map (fun T =>
         match GetLogLevel 1%positive (world_of (SetLevel 1%positive T infoWorld)) with
         | Ret r _ => Some r
         | Panic _ => None
         end)
      [-5; -4; -3; -2; -1; 0; 1; 4; 5; 8; 9]
  = map Some [-4; -4; -2; -2; 0; 0; 4; 4; 8; 8; -10].
Proof. vm_compute. reflexivity. Qed.

(** Without [ReplaceAttr] the Trace level would print as an offset from
    Debug. *)
Example Level_String_table :
  map slog.Level_String [-4; -2; 0; 1; 4; 8; 12]
  = ["DEBUG"; "DEBUG+2"; "INFO"; "INFO+1"; "WARN"; "ERROR"; "ERROR+4"]%string.
Proof. reflexivity. Qed.

(** ** Level gating *)

(** C1.  On a logger whose threshold is [T], an emission call at level [L]
    hands a record to the handler if and only if [T <= L]: when enabled,
    exactly one record is dispatched, carrying the level, the message, the
    attributes of the arguments and the captured program counter; when
    [L < T] the call returns at once and the world, history included, is
    unchanged, so no record was built and the handler was not invoked.
    This holds for every level, the five named ones included. *)
Theorem log_dispatches_iff_enabled (E : Env) (w : World) (l : loc) (T L : Level)
    (ctx : option context.Context) (msg : string) (args : list any) (stk : list Frame) :
  has_threshold w l T ->
  let o := log E l ctx L msg args stk w in
  (T <= L <->
     handled (trace (world_of o))
     = handled (trace w) ++ [(dispatch_ctx ctx, record_of E w L msg args stk)])
  /\ (L < T -> o = Ret tt w
               /\ built (trace (world_of o)) = built (trace w)
               /\ handled (trace (world_of o)) = handled (trace w)).
Proof.
  intros [a H] o. split; [split|].
  - intros HL. unfold o. rewrite (log_enabled E w l a T L ctx msg args stk H HL).
    destruct (commonHandler_line _ _); cbn [world_of add_events trace];
      rewrite ?handled_app; cbn; rewrite ?app_nil_r; reflexivity.
  - intros Hh. destruct (Z.lt_ge_cases L T) as [HL|HL]; [|exact HL].
    unfold o in Hh. rewrite (log_disabled E w l a T L ctx msg args stk H HL) in Hh.
    cbn in Hh. apply (f_equal (@length _)) in Hh.
    rewrite length_app in Hh. cbn in Hh. lia.
  - intros HL. unfold o.
    rewrite (log_disabled E w l a T L ctx msg args stk H HL). cbn. auto.
Qed.

Lemma log_dispatches_iff_enabled_witness :
  let o := log quietEnv 1%positive None LevelWarn "hello"
               [AnyString "user"; AnyInt 7] mainStack infoWorld in
  (LevelInfo <= LevelWarn <->
     handled (trace (world_of o))
     = handled (trace infoWorld)
       ++ [(dispatch_ctx None,
            record_of quietEnv infoWorld LevelWarn "hello"
                      [AnyString "user"; AnyInt 7] mainStack)])
  /\ (LevelWarn < LevelInfo -> o = Ret tt infoWorld
               /\ built (trace (world_of o)) = built (trace infoWorld)
               /\ handled (trace (world_of o)) = handled (trace infoWorld)).
Proof.
  apply (log_dispatches_iff_enabled quietEnv infoWorld 1%positive LevelInfo LevelWarn).
  exists 1%positive. split; reflexivity.
Defined.

(** ** Threshold: [SetLevel], [GetLogLevel], [Enabled] *)

Lemma SetLevel_logger_at (w : World) (l a : loc) (T x : Level) :
  logger_at w l a T ->
  let w' := mkWorld (<[a := x]> (levelVars w)) (loggers w) (trace w) in
  SetLevel l x w = Ret tt w' /\ logger_at w' l a x.
Proof.
  intros H w'. split.
  - unfold SetLevel, bind. rewrite (load_logger_at _ _ _ _ H); cbn [SlogLogger_lvl].
    destruct H as [_ Ha]. unfold LevelVar_Set. now rewrite Ha.
  - destruct H as [Hl _]. split; cbn; [exact Hl | apply lookup_insert_eq].
Qed.

(** The probe of [GetLogLevel] stops at the first level the threshold
    admits and leaves the world alone. *)
Lemma GetLogLevel_loop_logger_at (w : World) (l a : loc) (T : Level)
    (levels : list Level) (d : Level) :
  logger_at w l a T ->
  GetLogLevel_loop l levels d w
  = Ret (default d (head (filter (fun L => T <= L) levels))) w.
Proof.
  intros H. induction levels as [|L rest IH]; [reflexivity|].
  cbn [GetLogLevel_loop]. unfold bind.
  rewrite (load_logger_at _ _ _ _ H); cbn [SlogLogger_l].
  rewrite (gate_logger_at _ _ _ _ _ L H).
  rewrite filter_cons.
  destruct (Z.leb_spec T L) as [HL|HL].
  - rewrite decide_True by exact HL. reflexivity.
  - rewrite decide_False by lia. exact IH.
Qed.

(** C2.  After [SetLevel(T)], [GetLogLevel] returns, without changing the
    world, the lowest of the named levels Debug, Trace, Info, Warn, Error
    that is at least [T]; when [T] is above Error it returns -10, which is
    strictly below every named level. *)
Theorem GetLogLevel_after_SetLevel (w : World) (l : loc) (T0 T : Level) :
  has_threshold w l T0 ->
  exists w' r,
    SetLevel l T w = Ret tt w'
    /\ GetLogLevel l w' = Ret r w'
    /\ (T <= LevelError ->
          In r LevelIn /\ T <= r /\ forall L, In L LevelIn -> T <= L -> r <= L)
    /\ (LevelError < T -> r = -10 /\ forall L, In L LevelIn -> r < L).
Proof.
  intros [a H].
  destruct (SetLevel_logger_at w l a T0 T H) as [HS H'].
  eexists; eexists. split; [exact HS|]. split.
  - unfold GetLogLevel. apply (GetLogLevel_loop_logger_at _ l a T). exact H'.
  - unfold LevelIn, LevelDebug, LevelTrace, LevelInfo, LevelWarn, LevelError,
      slog.LevelDebug, slog.LevelInfo, slog.LevelWarn, slog.LevelError.
    rewrite !filter_cons, filter_nil.
    repeat case_decide; cbn [head default from_option In]; unfold id;
      (split; intros HT; [split; [|split] | split]);
      try lia; intros L HL; lia.
Qed.

Lemma GetLogLevel_after_SetLevel_witness :
  exists w' r,
    SetLevel 1%positive 3 infoWorld = Ret tt w'
    /\ GetLogLevel 1%positive w' = Ret r w'
    /\ (3 <= LevelError ->
          In r LevelIn /\ 3 <= r /\ forall L, In L LevelIn -> 3 <= L -> r <= L)
    /\ (LevelError < 3 -> r = -10 /\ forall L, In L LevelIn -> r < L).
Proof.
  apply (GetLogLevel_after_SetLevel infoWorld 1%positive LevelInfo 3).
  exists 1%positive. split; reflexivity.
Defined.

Lemma Enabled_logger_at (w : World) (l a : loc) (T : Level) :
  logger_at w l a T -> Enabled l w = Ret true w.
Proof.
  intros H. unfold Enabled, bind.
  rewrite (load_logger_at _ _ _ _ H); cbn [SlogLogger_l SlogLogger_lvl].
  pose proof H as [_ Ha]. unfold LevelVar_Level at 1. rewrite Ha.
  rewrite (gate_logger_at _ _ _ _ _ T H).
  now rewrite Z.leb_refl.
Qed.

(** C10.  [Enabled()] returns true on every logger, before and after any
    [SetLevel]: it asks the handler about the level the threshold
    variable holds, and the handler compares that level with the content
    of the same variable. *)
Theorem Enabled_always_true (w : World) (l : loc) (T0 : Level) :
  has_threshold w l T0 ->
  Enabled l w = Ret true w
  /\ forall T, exists w', SetLevel l T w = Ret tt w' /\ Enabled l w' = Ret true w'.
Proof.
  intros [a H]. split.
  - exact (Enabled_logger_at w l a T0 H).
  - intros T. destruct (SetLevel_logger_at w l a T0 T H) as [HS H'].
    eexists. split; [exact HS|]. exact (Enabled_logger_at _ l a T H').
Qed.

Lemma Enabled_always_true_witness :
  Enabled 1%positive warnWorld = Ret true warnWorld
  /\ forall T, exists w',
       SetLevel 1%positive T warnWorld = Ret tt w' /\ Enabled 1%positive w' = Ret true w'.
Proof.
  apply (Enabled_always_true warnWorld 1%positive LevelWarn).
  exists 1%positive. split; reflexivity.
Defined.

(** ** [clone] *)

Lemma clone_logger_at (w : World) (l a : loc) (T : Level) :
  logger_at w l a T ->
  let c := fresh (dom (loggers w)) in
  let s := mkSlogLogger (slog.New (slog.NewJSONHandler (New_options a))) a in
  let w1 := mkWorld (levelVars w) (<[c := s]> (loggers w)) (trace w) in
  clone l w = Ret c w1 /\ c <> l /\ logger_at w1 l a T /\ logger_at w1 c a T.
Proof.
  intros H c s w1.
  assert (c <> l) as Hne.
  { intros Heq. destruct H as [Hl _].
    apply (is_fresh (dom (loggers w))). apply elem_of_dom.
    fold c. rewrite Heq, Hl. eauto. }
  split; [|split; [exact Hne|split]].
  - unfold clone, bind. rewrite (load_logger_at _ _ _ _ H). reflexivity.
  - destruct H as [Hl Ha]. split; cbn; [|exact Ha].
    rewrite lookup_insert_ne by exact Hne. exact Hl.
  - destruct H as [Hl Ha]. split; cbn; [|exact Ha].
    apply lookup_insert_eq.
Qed.

(** C3.  [clone] returns a new handle, at an address different from [l],
    whose struct holds the same pointer to the level variable.  Setting a
    level through the clone and setting it through [l] lead to the same
    world, in which the threshold of [l] (and of the clone) is the new
    level: the clone has no level control of its own. *)
Theorem clone_aliases_threshold (w : World) (l : loc) (T : Level) :
  has_threshold w l T ->
  exists a c w1,
    clone l w = Ret c w1
    /\ c <> l
    /\ logger_at w1 l a T /\ logger_at w1 c a T
    /\ forall x, exists w2,
         SetLevel c x w1 = Ret tt w2
         /\ SetLevel l x w1 = Ret tt w2
         /\ has_threshold w2 l x
         /\ GetLogLevel l w2 = GetLogLevel l (world_of (SetLevel l x w1)).
Proof.
  intros [a H].
  destruct (clone_logger_at w l a T H) as (Hc & Hne & Hl1 & Hc1).
  exists a. eexists. eexists. split; [exact Hc|]. split; [exact Hne|].
  split; [exact Hl1|]. split; [exact Hc1|].
  intros x.
  destruct (SetLevel_logger_at _ l a T x Hl1) as [HSl Hl2].
  destruct (SetLevel_logger_at _ _ a T x Hc1) as [HSc _].
  eexists. split; [exact HSc|]. split; [exact HSl|]. split.
  - exists a. exact Hl2.
  - rewrite HSl. reflexivity.
Qed.

Lemma clone_aliases_threshold_witness :
  exists a c w1,
    clone 1%positive infoWorld = Ret c w1
    /\ c <> 1%positive
    /\ logger_at w1 1%positive a LevelInfo /\ logger_at w1 c a LevelInfo
    /\ forall x, exists w2,
         SetLevel c x w1 = Ret tt w2
         /\ SetLevel 1%positive x w1 = Ret tt w2
         /\ has_threshold w2 1%positive x
         /\ GetLogLevel 1%positive w2
            = GetLogLevel 1%positive (world_of (SetLevel 1%positive x w1)).
Proof.
  apply (clone_aliases_threshold infoWorld 1%positive LevelInfo).
  exists 1%positive. split; reflexivity.
Defined.

(** ** [Infof] *)

(** C4, as the code has it.  [Infof] substitutes the format string before
    the level is checked.  When Info is disabled by the threshold, the call
    performs exactly that one substitution and nothing else: the formatted
    message is dropped, no record is built and the handler is not
    invoked. *)
Theorem Infof_disabled_formats_once (E : Env) (w : World) (l : loc) (T : Level)
    (format : string) (args : list any) (stk : list Frame) :
  has_threshold w l T -> LevelInfo < T ->
  let o := Infof E l format args stk w in
  o = Ret tt (add_events w [EvSprintf format args])
  /\ formatted (trace (world_of o)) = formatted (trace w) ++ [(format, args)]
  /\ built (trace (world_of o)) = built (trace w)
  /\ handled (trace (world_of o)) = handled (trace w).
Proof.
  intros [a H] HT o.
  assert (o = Ret tt (add_events w [EvSprintf format args])) as Ho.
  { unfold o, Infof, Sprintf, Log, bind, emit, ret; cbn.
    apply (log_disabled E _ l a T); [|exact HT].
    exact (logger_at_add_events w l a T [EvSprintf format args] H). }
  rewrite Ho. cbn [world_of add_events trace].
  unfold formatted, built, handled. rewrite !omap_app. cbn.
  rewrite !app_nil_r. auto.
Qed.

Lemma Infof_disabled_formats_once_witness :
  let o := Infof quietEnv 1%positive "%d items" [AnyInt 3] mainStack warnWorld in
  o = Ret tt (add_events warnWorld [EvSprintf "%d items" [AnyInt 3]])
  /\ formatted (trace (world_of o)) = formatted (trace warnWorld) ++ [("%d items"%string, [AnyInt 3])]
  /\ built (trace (world_of o)) = built (trace warnWorld)
  /\ handled (trace (world_of o)) = handled (trace warnWorld).
Proof.
  apply (Infof_disabled_formats_once quietEnv warnWorld 1%positive LevelWarn).
  - exists 1%positive. split; reflexivity.
  - reflexivity.
Defined.

(** C4, as stated, fails: with the threshold at Warn, Info is disabled, and
    [Infof("%d items", 3)] still runs one format-string substitution in a
    world whose history had none. *)
Lemma Infof_disabled_still_formats :
  has_threshold warnWorld 1%positive LevelWarn
  /\ LevelInfo < LevelWarn
  /\ formatted (trace warnWorld) = []
  /\ formatted (trace (world_of
        (Infof quietEnv 1%positive "%d items" [AnyInt 3] mainStack warnWorld)))
     = [("%d items"%string, [AnyInt 3])].
Proof.
  split; [exists 1%positive; split; reflexivity|].
  split; [reflexivity|]. split; reflexivity.
Qed.

(** ** The captured call site *)

(** With skip 4, [log] reports the frame two above [Log].  Through a
    convenience method, whose own frame lies in between, that is the caller
    of the method; for a direct call of [Log] it is the caller of the
    function that called [Log]. *)
Lemma captured_pc_above_Log (f : Frame) (stk : list Frame) :
  captured_pc (frame_Log :: f :: stk) = head stk.
Proof. destruct stk; reflexivity. Qed.

(** ** The level label *)

Lemma ReplaceAttr_level (groups : list string) (L : Level) :
  ReplaceAttr groups (slog.Any slog.LevelKey (AnyLevel L))
  = Some (slog.String_ slog.LevelKey
            (if L =? LevelTrace then "TRACE"%string else slog.Level_String L)).
Proof. reflexivity. Qed.

Lemma named_label_spec (L : Level) :
  In L LevelIn ->
  named_label L = (if L =? LevelTrace then "TRACE"%string else slog.Level_String L).
Proof.
  cbn. intros [<-|[<-|[<-|[<-|[<-|[]]]]]]; reflexivity.
Qed.

(** The line the handler of [New] builds starts with the time, unless it
    is zero, and the level attribute as [ReplaceAttr] rewrote it. *)
Lemma commonHandler_line_level (a : loc) (r : slog.Record_) (line : list slog.Attr) :
  commonHandler_line (slog.NewJSONHandler (New_options a)) r = Some line ->
  exists post,
    line = (if slog.Record_Time r =? 0 then []
            else [slog.Time slog.TimeKey (slog.Record_Time r)])
           ++ slog.String_ slog.LevelKey
                (if slog.Record_Level r =? LevelTrace then "TRACE"%string
                 else slog.Level_String (slog.Record_Level r))
           :: post.
Proof.
  unfold commonHandler_line; cbn.
  destruct (appendAttrs _ _) as [rest|].
  - destruct (slog.Record_Time r =? 0); intros [= <-]; eexists; reflexivity.
  - destruct (slog.Record_Time r =? 0); destruct (slog.Record_PC r); discriminate.
Qed.

(** C6.  For each of the named levels, the attribute-replacement function
    turns the level attribute into the string of [named_label]: "TRACE"
    for the Trace level, and the standard name of the level ([DEBUG],
    [INFO], [WARN], [ERROR]) for the others; and in every line the handler
    builds for a record at that level, the level member, which follows the
    time, carries that label. *)
Theorem level_label_serialized (L : Level) (groups : list string) :
  In L LevelIn ->
  ReplaceAttr groups (slog.Any slog.LevelKey (AnyLevel L))
    = Some (slog.String_ slog.LevelKey (named_label L))
  /\ (L = LevelTrace -> named_label L = "TRACE"%string)
  /\ (L <> LevelTrace ->
        named_label L = slog.Level_String L
        /\ In (named_label L) ["DEBUG"; "INFO"; "WARN"; "ERROR"]%string)
  /\ forall (a : loc) (r : slog.Record_) (line : list slog.Attr),
       slog.Record_Level r = L ->
       commonHandler_line (slog.NewJSONHandler (New_options a)) r = Some line ->
       exists post,
         line = (if slog.Record_Time r =? 0 then []
                 else [slog.Time slog.TimeKey (slog.Record_Time r)])
                ++ slog.String_ slog.LevelKey (named_label L) :: post.
Proof.
  intros HL. split; [|split; [|split]].
  - rewrite ReplaceAttr_level, (named_label_spec L HL). reflexivity.
  - intros ->. reflexivity.
  - intros Hne. cbn in HL.
    destruct HL as [<-|[<-|[<-|[<-|[<-|[]]]]]]; cbn;
      try (exfalso; apply Hne; reflexivity); split; auto.
  - intros a r line Hr Hline.
    destruct (commonHandler_line_level a r line Hline) as [post Hpost].
    exists post. rewrite Hpost, Hr, (named_label_spec L HL). reflexivity.
Qed.

Lemma level_label_serialized_witness :
  ReplaceAttr [] (slog.Any slog.LevelKey (AnyLevel LevelTrace))
    = Some (slog.String_ slog.LevelKey (named_label LevelTrace))
  /\ (LevelTrace = LevelTrace -> named_label LevelTrace = "TRACE"%string)
  /\ (LevelTrace <> LevelTrace ->
        named_label LevelTrace = slog.Level_String LevelTrace
        /\ In (named_label LevelTrace) ["DEBUG"; "INFO"; "WARN"; "ERROR"]%string)
  /\ forall (a : loc) (r : slog.Record_) (line : list slog.Attr),
       slog.Record_Level r = LevelTrace ->
       commonHandler_line (slog.NewJSONHandler (New_options a)) r = Some line ->
       exists post,
         line = (if slog.Record_Time r =? 0 then []
                 else [slog.Time slog.TimeKey (slog.Record_Time r)])
                ++ slog.String_ slog.LevelKey (named_label LevelTrace) :: post.
Proof.
  apply (level_label_serialized LevelTrace []).
  cbn. right. left. reflexivity.
Defined.

(** ** Errors of the dispatch *)

(** C7.  [log] has no result to return an error in, and it passes none
    on.  When the level is disabled the call returns normally and nothing
    happened.  When the level is enabled, the outcome of [log] is the
    outcome of the handler's [Handle] with its result, nil or an error,
    replaced by the unit: the error value of the dispatch is dropped at
    the call. *)
Theorem log_discards_handler_error (E : Env) (w : World) (l a : loc) (T L : Level)
    (ctx : option context.Context) (msg : string) (args : list any) (stk : list Frame) :
  logger_at w l a T ->
  (L < T -> log E l ctx L msg args stk w = Ret tt w)
  /\ (T <= L ->
      let r := record_of E w L msg args stk in
      let w0 := add_events w
                  [EvCallers 4 (captured_pc stk);
                   EvNow (slog.Record_Time r);
                   EvNewRecord (slog.NewRecord (slog.Record_Time r) L msg (captured_pc stk))] in
      log E l ctx L msg args stk w
      = match JSONHandler_Handle E (slog.NewJSONHandler (New_options a))
                                 (dispatch_ctx ctx) r w0 with
        | Ret _ w' => Ret tt w'
        | Panic w' => Panic w'
        end)
  /\ (T <= L ->
      forall (line : list slog.Attr) (e : error),
        let r := record_of E w L msg args stk in
        let w1 := add_events w (dispatch_events E w ctx L msg args stk) in
        commonHandler_line (slog.NewJSONHandler (New_options a)) r = Some line ->
        Stdout_Write E (trace w1) line = Some e ->
        log E l ctx L msg args stk w
        = Ret tt (add_events w1 [EvWrite line (Some e)])).
Proof.
  intros H. split; [|split].
  - intros HL. exact (log_disabled E w l a T L ctx msg args stk H HL).
  - intros HL r w0. rewrite (log_enabled E w l a T L ctx msg args stk H HL).
    unfold JSONHandler_Handle, bind, emit, history, lift, ret, panic.
    unfold w0, add_events, dispatch_events; cbn. fold r.
    rewrite <- !app_assoc; cbn.
    destruct (commonHandler_line _ r); cbn; rewrite <- ?app_assoc; reflexivity.
  - intros HL line e r w1 Hline He.
    rewrite (log_enabled E w l a T L ctx msg args stk H HL).
    fold r. rewrite Hline. fold w1. rewrite He. reflexivity.
Qed.

Lemma log_discards_handler_error_witness :
  let E := brokenPipeEnv in
  let w := infoWorld in
  let msg := "saved"%string in
  let args := [AnyString "id"; AnyInt 7] in
  (LevelError < LevelInfo ->
     log E 1%positive None LevelError msg args mainStack w = Ret tt w)
  /\ (LevelInfo <= LevelError ->
      let r := record_of E w LevelError msg args mainStack in
      let w0 := add_events w
                  [EvCallers 4 (captured_pc mainStack);
                   EvNow (slog.Record_Time r);
                   EvNewRecord (slog.NewRecord (slog.Record_Time r) LevelError msg
                                  (captured_pc mainStack))] in
      log E 1%positive None LevelError msg args mainStack w
      = match JSONHandler_Handle E (slog.NewJSONHandler (New_options 1%positive))
                                 (dispatch_ctx None) r w0 with
        | Ret _ w' => Ret tt w'
        | Panic w' => Panic w'
        end)
  /\ (LevelInfo <= LevelError ->
      forall (line : list slog.Attr) (e : error),
        let r := record_of E w LevelError msg args mainStack in
        let w1 := add_events w (dispatch_events E w None LevelError msg args mainStack) in
        commonHandler_line (slog.NewJSONHandler (New_options 1%positive)) r = Some line ->
        Stdout_Write E (trace w1) line = Some e ->
        log E 1%positive None LevelError msg args mainStack w
        = Ret tt (add_events w1 [EvWrite line (Some e)])).
Proof.
  apply (log_discards_handler_error brokenPipeEnv infoWorld 1%positive 1%positive
           LevelInfo LevelError).
  split; reflexivity.
Defined.

(** A failed write in action: the handler reports the error, [log]
    returns normally, and the history ends with the failed write. *)
Example log_returns_despite_write_error :
  exists w',
    log brokenPipeEnv 1%positive None LevelError "saved" [] mainStack infoWorld = Ret tt w'
    /\ exists line,
         last (trace w')
         = Some (EvWrite line (Some "write /dev/stdout: broken pipe"%string)).
Proof.
  exists (world_of (log brokenPipeEnv 1%positive None LevelError "saved" [] mainStack infoWorld)).
  split; [vm_compute; reflexivity|].
  eexists. vm_compute. reflexivity.
Qed.

(** The type assertion in [ReplaceAttr] is unchecked: an enabled call whose
    arguments bind the key "level" to something that is not a [slog.Level]
    panics inside the handler.  This is a panic, not an error value. *)
Example log_panics_on_level_attribute :
  exists w',
    Info quietEnv 1%positive "hello" [AnyString "level"; AnyString "high"]
         mainStack infoWorld = Panic w'
    /\ handled (trace w') <> [].
Proof.
  exists (world_of (Info quietEnv 1%positive "hello" [AnyString "level"; AnyString "high"]
                         mainStack infoWorld)).
  split; [vm_compute; reflexivity|]. vm_compute. discriminate.
Qed.

(** ** Context attachment *)

(** [context.WithValue] refuses a nil parent. *)
Lemma WithContext_nil (l : loc) (w : World) : WithContext l None w = Panic w.
Proof. reflexivity. Qed.

(** C8.  For every logger pointer and every context, [WithContext]
    returns a context in which the package's key is bound to that very
    pointer: the lookup yields the address [l] itself, whatever the parent
    context bound under that key. *)
Theorem WithContext_lookup (l : loc) (ctx : context.Context) (w : World) :
  exists ctx',
    WithContext l (Some ctx) w = Ret ctx' w
    /\ context.Value ctx' defaultLogContextKey = AnySlogLogger l.
Proof.
  eexists. split; [reflexivity|].
  cbn. rewrite decide_True by reflexivity. reflexivity.
Qed.

(** A clone stored in a context is found as the clone, not as the
    original: the lookup distinguishes the two handles. *)
Lemma WithContext_clone_distinct (w : World) (l a : loc) (T : Level) (ctx : context.Context) :
  logger_at w l a T ->
  exists c w1 ctx',
    clone l w = Ret c w1
    /\ WithContext c (Some ctx) w1 = Ret ctx' w1
    /\ context.Value ctx' defaultLogContextKey <> AnySlogLogger l.
Proof.
  intros H. destruct (clone_logger_at w l a T H) as (Hc & Hne & _).
  eexists; eexists; eexists. split; [exact Hc|]. split; [reflexivity|].
  cbn. rewrite decide_True by reflexivity. intros [= Heq]. exact (Hne Heq).
Qed.

(** ** Level constants *)

(** C9.  The named levels are Debug = -4, Trace = -2, Info = 0, Warn = 4,
    Error = 8, in strictly ascending order, which is also the order of
    [LevelIn]. *)
Theorem level_constants :
  LevelDebug = -4 /\ LevelTrace = -2 /\ LevelInfo = 0 /\ LevelWarn = 4 /\ LevelError = 8
  /\ LevelDebug < LevelTrace /\ LevelTrace < LevelInfo
  /\ LevelInfo < LevelWarn /\ LevelWarn < LevelError
  /\ LevelIn = [-4; -2; 0; 4; 8].
Proof. repeat split; reflexivity. Qed.

(** * Further properties *)

(** ** Construction *)

Lemma GetLogLevel_logger_at (w : World) (l a : loc) (T : Level) :
  logger_at w l a T -> GetLogLevel l w = Ret (lowest_named T) w.
Proof.
  intros H. unfold GetLogLevel, lowest_named.
  exact (GetLogLevel_loop_logger_at w l a T LevelIn (-10) H).
Qed.

Lemma log_enabled_dispatched (E : Env) (w : World) (l a : loc) (T L : Level)
    (ctx : option context.Context) (msg : string) (args : list any) (stk : list Frame) :
  logger_at w l a T -> T <= L ->
  dispatched w (log E l ctx L msg args stk w).
Proof.
  intros H HL. unfold dispatched.
  rewrite (log_enabled E w l a T L ctx msg args stk H HL).
  destruct (commonHandler_line _ _); cbn [world_of add_events trace];
    rewrite ?handled_app, ?length_app; cbn; lia.
Qed.

(** X1.  In every world [New(level)] succeeds without a trace in the
    history, and the logger it returns has exactly the requested level as
    its threshold: a call below that level is dropped, a call at or above
    it reaches the handler, [GetLogLevel] on it answers the lowest named
    level the requested one admits, and [Enabled] answers true. *)
Theorem New_then_readers (E : Env) (w : World) (level : Level) :
  exists l w',
    New level w = Ret l w'
    /\ loggers w !! l = None
    /\ trace w' = trace w
    /\ has_threshold w' l level
    /\ GetLogLevel l w' = Ret (lowest_named level) w'
    /\ Enabled l w' = Ret true w'
    /\ (forall ctx L msg args stk,
          L < level -> log E l ctx L msg args stk w' = Ret tt w')
    /\ (forall ctx L msg args stk,
          level <= L -> dispatched w' (log E l ctx L msg args stk w')).
Proof.
  destruct (New_has_threshold w level) as (l & w' & HN & Hfresh & [a H] & Htr).
  exists l, w'.
  split; [exact HN|]. split; [exact Hfresh|]. split; [exact Htr|].
  split; [exists a; exact H|].
  split; [exact (GetLogLevel_logger_at w' l a level H)|].
  split; [exact (Enabled_logger_at w' l a level H)|].
  split.
  - intros ctx L msg args stk HL.
    exact (log_disabled E w' l a level L ctx msg args stk H HL).
  - intros ctx L msg args stk HL.
    exact (log_enabled_dispatched E w' l a level L ctx msg args stk H HL).
Qed.

(** X2.  A logger built by [New] next to an existing one has a level
    variable of its own: the existing logger keeps its threshold, and
    setting the level of the new logger never changes it. *)
Theorem New_loggers_independent (w : World) (l : loc) (T level : Level) :
  has_threshold w l T ->
  exists l' w',
    New level w = Ret l' w'
    /\ l' <> l
    /\ has_threshold w' l' level
    /\ has_threshold w' l T
    /\ forall x, exists w2,
         SetLevel l' x w' = Ret tt w2
         /\ has_threshold w2 l' x
         /\ has_threshold w2 l T.
Proof.
  intros [a [Hl Ha]].
  set (a' := fresh (dom (levelVars w))).
  set (l' := fresh (dom (loggers w))).
  assert (a' <> a) as Hane.
  { intros Heq. apply (is_fresh (dom (levelVars w))). apply elem_of_dom.
    fold a'. rewrite Heq, Ha. eauto. }
  assert (l' <> l) as Hlne.
  { intros Heq. apply (is_fresh (dom (loggers w))). apply elem_of_dom.
    fold l'. rewrite Heq, Hl. eauto. }
  exists l'. eexists. split.
  { unfold New, bind, LevelVar_new, LevelVar_Set, alloc; cbn.
    rewrite lookup_insert_eq. cbn. fold a'. fold l'. reflexivity. }
  split; [exact Hlne|].
  assert (forall (lv : gmap loc Level) (tr : list Event) x,
            logger_at (mkWorld (<[a' := x]> lv) (<[l' := mkSlogLogger
              (slog.New (slog.NewJSONHandler (New_options a'))) a']> (loggers w)) tr)
              l' a' x) as Hnew.
  { intros lv tr x. split; cbn; apply lookup_insert_eq. }
  assert (forall (lv : gmap loc Level) (tr : list Event) x,
            lv !! a = Some T ->
            logger_at (mkWorld (<[a' := x]> lv) (<[l' := mkSlogLogger
              (slog.New (slog.NewJSONHandler (New_options a'))) a']> (loggers w)) tr)
              l a T) as Hold.
  { intros lv tr x Hlv. split; cbn.
    - rewrite lookup_insert_ne by exact Hlne. exact Hl.
    - rewrite lookup_insert_ne by exact Hane. exact Hlv. }
  split; [exists a'; apply Hnew|].
  split; [exists a; apply Hold; rewrite lookup_insert_ne by exact Hane; exact Ha|].
  intros x.
  destruct (SetLevel_logger_at _ l' a' level x
              (Hnew (<[a' := 0]> (levelVars w)) (trace w) level)) as [HS _].
  eexists. split; [exact HS|]. cbn [levelVars loggers trace].
  rewrite insert_insert_eq.
  split; [exists a'; apply Hnew|].
  exists a. apply Hold. rewrite lookup_insert_ne by exact Hane. exact Ha.
Qed.

Lemma New_loggers_independent_witness :
  exists l' w',
    New LevelError infoWorld = Ret l' w'
    /\ l' <> 1%positive
    /\ has_threshold w' l' LevelError
    /\ has_threshold w' 1%positive LevelInfo
    /\ forall x, exists w2,
         SetLevel l' x w' = Ret tt w2
         /\ has_threshold w2 l' x
         /\ has_threshold w2 1%positive LevelInfo.
Proof.
  apply (New_loggers_independent infoWorld 1%positive LevelInfo LevelError).
  exists 1%positive. split; reflexivity.
Defined.

(** ** Setting the level *)

(** X3.  [SetLevel] touches nothing but the level variable: the history
    and the logger structs stay as they are.  The last level set wins,
    whatever was set before, and setting the level the threshold already
    has changes nothing. *)
Theorem SetLevel_last_wins (w : World) (l : loc) (T x y : Level) :
  has_threshold w l T ->
  exists w1 w2,
    SetLevel l x w = Ret tt w1
    /\ SetLevel l y w1 = Ret tt w2
    /\ SetLevel l y w = Ret tt w2
    /\ trace w2 = trace w /\ loggers w2 = loggers w
    /\ has_threshold w2 l y
    /\ SetLevel l T w = Ret tt w.
Proof.
  intros [a H].
  destruct (SetLevel_logger_at w l a T x H) as [Hx Hx'].
  destruct (SetLevel_logger_at _ l a x y Hx') as [Hxy Hxy'].
  destruct (SetLevel_logger_at w l a T y H) as [Hy Hy'].
  destruct (SetLevel_logger_at w l a T T H) as [HT _].
  eexists; eexists. split; [exact Hx|]. split; [exact Hxy|].
  cbn [levelVars loggers trace]. rewrite insert_insert_eq.
  split; [exact Hy|]. split; [reflexivity|]. split; [reflexivity|].
  split; [exists a; exact Hy'|].
  rewrite HT. f_equal. destruct H as [_ Ha]. destruct w as [lv lg tr]; cbn in *.
  f_equal. apply insert_id. exact Ha.
Qed.

Lemma SetLevel_last_wins_witness :
  exists w1 w2,
    SetLevel 1%positive LevelDebug infoWorld = Ret tt w1
    /\ SetLevel 1%positive LevelError w1 = Ret tt w2
    /\ SetLevel 1%positive LevelError infoWorld = Ret tt w2
    /\ trace w2 = trace infoWorld /\ loggers w2 = loggers infoWorld
    /\ has_threshold w2 1%positive LevelError
    /\ SetLevel 1%positive LevelInfo infoWorld = Ret tt infoWorld.
Proof.
  apply (SetLevel_last_wins infoWorld 1%positive LevelInfo LevelDebug LevelError).
  exists 1%positive. split; reflexivity.
Defined.

(** X4.  [GetLogLevel] gives back the level that was set exactly when
    that level is one of the five named ones; any other level is reported
    as the next named level above it, or as -10. *)
Theorem GetLogLevel_roundtrip_iff_named (w : World) (l : loc) (T0 T : Level) :
  has_threshold w l T0 ->
  exists w' r,
    SetLevel l T w = Ret tt w'
    /\ GetLogLevel l w' = Ret r w'
    /\ (r = T <-> In T LevelIn)
    /\ (~ In T LevelIn -> T < r \/ r = -10).
Proof.
  intros [a H].
  destruct (SetLevel_logger_at w l a T0 T H) as [HS H'].
  eexists; eexists. split; [exact HS|].
  split; [exact (GetLogLevel_logger_at _ l a T H')|].
  unfold lowest_named, LevelIn, LevelDebug, LevelTrace, LevelInfo, LevelWarn,
    LevelError, slog.LevelDebug, slog.LevelInfo, slog.LevelWarn, slog.LevelError.
  rewrite !filter_cons, filter_nil.
  repeat case_decide; cbn [head default from_option In]; unfold id; split; lia.
Qed.

Lemma GetLogLevel_roundtrip_iff_named_witness :
  exists w' r,
    SetLevel 1%positive 2 infoWorld = Ret tt w'
    /\ GetLogLevel 1%positive w' = Ret r w'
    /\ (r = 2 <-> In 2 LevelIn)
    /\ (~ In 2 LevelIn -> 2 < r \/ r = -10).
Proof.
  apply (GetLogLevel_roundtrip_iff_named infoWorld 1%positive LevelInfo 2).
  exists 1%positive. split; reflexivity.
Defined.

(** ** What the calls leave alone *)

Lemma Logger_Enabled_cases (sl : slog.Logger) (ctx : option context.Context)
    (L : Level) (w : World) :
  (exists b, Logger_Enabled sl ctx L w = Ret b w) \/ Logger_Enabled sl ctx L w = Panic w.
Proof.
  destruct sl as [[[src lv rep]]].
  unfold Logger_Enabled, commonHandler_enabled, bind; cbn.
  destruct lv as [[c|p]|]; cbn; unfold ret; eauto.
  unfold LevelVar_Level. destruct (levelVars w !! p); eauto.
Qed.

Lemma GetLogLevel_loop_world (l : loc) (levels : list Level) (d : Level) (w : World) :
  world_of (GetLogLevel_loop l levels d w) = w.
Proof.
  induction levels as [|L rest IH]; [reflexivity|].
  cbn [GetLogLevel_loop]. unfold bind, load.
  destruct (loggers w !! l) as [s|]; [|reflexivity].
  destruct (Logger_Enabled_cases (SlogLogger_l s) (Some context.Background) L w)
    as [[b ->]| ->]; [|reflexivity].
  destruct b; [reflexivity|exact IH].
Qed.

(** X5.  The readers are read-only on every input, including a nil or
    dangling receiver and a logger with any handler options: whatever
    [GetLogLevel], [Enabled] and [WithContext] answer, and also when they
    panic, the level variables, the logger structs and the history are
    exactly as before. *)
Theorem readers_leave_world (l : loc) (ctx : option context.Context) (w : World) :
  world_of (GetLogLevel l w) = w
  /\ world_of (Enabled l w) = w
  /\ world_of (WithContext l ctx w) = w.
Proof.
  split; [|split].
  - apply GetLogLevel_loop_world.
  - unfold Enabled, bind, load.
    destruct (loggers w !! l) as [s|]; [|reflexivity].
    unfold LevelVar_Level at 1.
    destruct (levelVars w !! SlogLogger_lvl s) as [lv|]; [|reflexivity].
    destruct (Logger_Enabled_cases (SlogLogger_l s) (Some context.Background) lv w)
      as [[b ->]| ->]; reflexivity.
  - unfold WithContext. destruct (context_WithValue _ _ _); reflexivity.
Qed.

Lemma log_extends (E : Env) (l : loc) (ctx : option context.Context) (L : Level)
    (msg : string) (args : list any) (stk : list Frame) (w : World) :
  extends w (world_of (log E l ctx L msg args stk w)).
Proof.
  assert (extends w w) as Hrefl.
  { split; [reflexivity|]. split; [reflexivity|]. exists []. now rewrite app_nil_r. }
  unfold log, bind. unfold load at 1.
  destruct (loggers w !! l) as [s|] eqn:Hl; [|exact Hrefl].
  destruct (Logger_Enabled_cases (SlogLogger_l s) ctx L w) as [[b ->]| ->];
    [|exact Hrefl].
  destruct b; cbn [negb]; [|exact Hrefl].
  unfold runtime_Callers, Now, JSONHandler_Handle, history, emit, load, bind, ret, lift;
    cbn.
  rewrite Hl; cbn.
  destruct (commonHandler_line _ _) as [line|]; cbn;
    (split; [reflexivity|]; split; [reflexivity|]);
    rewrite <- ?app_assoc; eexists; reflexivity.
Qed.

(** X6.  Emitting never changes a threshold or a logger: after [Log], any
    convenience method or [Infof], at any level, on any receiver and
    whether the call returns or panics, the level variables and the logger
    structs are the same, and the earlier history is a prefix of the new
    one, so records already dispatched are not touched. *)
Theorem emission_extends_history (E : Env) (l : loc) (ctx : option context.Context)
    (L : Level) (msg format : string) (args : list any) (stk : list Frame) (w : World) :
  extends w (world_of (Log E l ctx L msg args stk w))
  /\ extends w (world_of (Info E l msg args stk w))
  /\ extends w (world_of (InfoContext E l ctx msg args stk w))
  /\ extends w (world_of (Trace E l msg args stk w))
  /\ extends w (world_of (Warn E l msg args stk w))
  /\ extends w (world_of (Error E l msg args stk w))
  /\ extends w (world_of (Infof E l format args stk w)).
Proof.
  do 6 (split; [apply log_extends|]).
  unfold Infof, Sprintf, Log, bind, emit, ret; cbn.
  destruct (log_extends E l (Some context.Background) LevelInfo
              (fmt_Sprintf E format args) [] (frame_Log :: frame_Infof :: stk)
              (mkWorld (levelVars w) (loggers w) (trace w ++ [EvSprintf format args])))
    as (Hlv & Hlg & evs & Htr); cbn in *.
  split; [exact Hlv|]. split; [exact Hlg|].
  eexists. rewrite Htr, <- app_assoc. reflexivity.
Qed.

(** ** The reported call site *)

Lemma Log_enabled_handled (E : Env) (w : World) (l a : loc) (T L : Level)
    (ctx : option context.Context) (msg : string) (args : list any) (stk : list Frame) :
  logger_at w l a T -> T <= L ->
  handled (trace (world_of (Log E l ctx L msg args stk w)))
  = handled (trace w)
    ++ [(dispatch_ctx ctx, record_of E w L msg args (frame_Log :: stk))].
Proof.
  intros H HL. unfold Log.
  rewrite (log_enabled E w l a T L ctx msg args (frame_Log :: stk) H HL).
  destruct (commonHandler_line _ _); cbn [world_of add_events trace];
    rewrite ?handled_app; cbn; rewrite ?app_nil_r; reflexivity.
Qed.

Lemma reported_pcs_snoc (tr : list (context.Context * slog.Record_))
    (c : context.Context) (r : slog.Record_) :
  map (fun cr => slog.Record_PC (snd cr)) (tr ++ [(c, r)])
  = map (fun cr => slog.Record_PC (snd cr)) tr ++ [slog.Record_PC r].
Proof. rewrite map_app. reflexivity. Qed.

(** X7.  With every named level from Trace up enabled, the record
    dispatched by [Info], [InfoContext], [Trace], [Warn], [Error] and
    [Infof] carries the program counter of the caller of that method (zero
    when there is no caller); the record of a direct call of [Log] carries
    the frame one further out, the caller of the function that called
    [Log] (zero when that function is the outermost). *)
Theorem convenience_reports_caller (E : Env) (w : World) (l : loc) (T : Level)
    (ctx : option context.Context) (msg format : string) (args : list any)
    (stk : list Frame) :
  has_threshold w l T -> T <= LevelTrace ->
  let pcs (o : Outcome unit) := reported_pcs (trace (world_of o)) in
  pcs (Info E l msg args stk w) = reported_pcs (trace w) ++ [head stk]
  /\ pcs (InfoContext E l ctx msg args stk w) = reported_pcs (trace w) ++ [head stk]
  /\ pcs (Trace E l msg args stk w) = reported_pcs (trace w) ++ [head stk]
  /\ pcs (Warn E l msg args stk w) = reported_pcs (trace w) ++ [head stk]
  /\ pcs (Error E l msg args stk w) = reported_pcs (trace w) ++ [head stk]
  /\ pcs (Infof E l format args stk w) = reported_pcs (trace w) ++ [head stk]
  /\ pcs (Log E l ctx LevelInfo msg args stk w) = reported_pcs (trace w) ++ [nth_error stk 1].
Proof.
  intros [a H] HT pcs.
  assert (forall (f : Frame) c L m ar,
            T <= L ->
            pcs (Log E l c L m ar (f :: stk) w) = reported_pcs (trace w) ++ [head stk])
    as Hm.
  { intros f c L m ar HL. unfold pcs, reported_pcs.
    rewrite (Log_enabled_handled E w l a T L c m ar (f :: stk) H HL).
    rewrite reported_pcs_snoc. cbn [record_of slog.Record_PC].
    rewrite captured_pc_above_Log. reflexivity. }
  unfold LevelTrace in HT.
  split; [apply Hm; unfold LevelInfo, slog.LevelInfo; lia|].
  split; [apply Hm; unfold LevelInfo, slog.LevelInfo; lia|].
  split; [apply Hm; unfold LevelTrace; lia|].
  split; [apply Hm; unfold LevelWarn, slog.LevelWarn; lia|].
  split; [apply Hm; unfold LevelError, slog.LevelError; lia|].
  split.
  - unfold pcs, reported_pcs.
    change (Infof E l format args stk w)
      with (Log E l (Some context.Background) LevelInfo (fmt_Sprintf E format args) []
                (frame_Infof :: stk) (add_events w [EvSprintf format args])).
    rewrite (Log_enabled_handled E _ l a T LevelInfo (Some context.Background)
               (fmt_Sprintf E format args) [] (frame_Infof :: stk)
               (logger_at_add_events w l a T [EvSprintf format args] H));
      [|unfold LevelInfo, slog.LevelInfo; lia].
    rewrite reported_pcs_snoc. cbn [record_of slog.Record_PC].
    rewrite captured_pc_above_Log.
    cbn [add_events trace]. rewrite handled_app. cbn. rewrite app_nil_r. reflexivity.
  - unfold pcs, reported_pcs.
    rewrite (Log_enabled_handled E w l a T LevelInfo ctx msg args stk H);
      [|unfold LevelInfo, slog.LevelInfo; lia].
    rewrite reported_pcs_snoc. reflexivity.
Qed.

Lemma convenience_reports_caller_witness :
  let E := quietEnv in
  let w := debugWorld in
  let l := 1%positive in
  let args := [AnyString "id"; AnyInt 7] in
  let pcs (o : Outcome unit) := reported_pcs (trace (world_of o)) in
  pcs (Info E l "m" args mainStack w) = reported_pcs (trace w) ++ [head mainStack]
  /\ pcs (InfoContext E l None "m" args mainStack w) = reported_pcs (trace w) ++ [head mainStack]
  /\ pcs (Trace E l "m" args mainStack w) = reported_pcs (trace w) ++ [head mainStack]
  /\ pcs (Warn E l "m" args mainStack w) = reported_pcs (trace w) ++ [head mainStack]
  /\ pcs (Error E l "m" args mainStack w) = reported_pcs (trace w) ++ [head mainStack]
  /\ pcs (Infof E l "%v" args mainStack w) = reported_pcs (trace w) ++ [head mainStack]
  /\ pcs (Log E l None LevelInfo "m" args mainStack w)
     = reported_pcs (trace w) ++ [nth_error mainStack 1].
Proof.
  apply (convenience_reports_caller quietEnv debugWorld 1%positive LevelDebug).
  - exists 1%positive. split; reflexivity.
  - unfold LevelDebug, slog.LevelDebug, LevelTrace. lia.
Defined.

(** X8.  [InfoContext] with a nil context, and with the background
    context, is indistinguishable from [Info]: same outcome, same
    history, same record, on every receiver and in every world. *)
Theorem InfoContext_nil_is_Info (E : Env) (l : loc) (msg : string) (args : list any)
    (stk : list Frame) (w : World) :
  InfoContext E l None msg args stk w = Info E l msg args stk w
  /\ InfoContext E l (Some context.Background) msg args stk w = Info E l msg args stk w.
Proof. split; reflexivity. Qed.

(** ** The written line and the panic of [ReplaceAttr] *)

Lemma ReplaceAttr_cases (groups : list string) (x : slog.Attr) :
  ReplaceAttr groups x = if level_attr_ok x then Some (relabel x) else None.
Proof.
  unfold ReplaceAttr, level_attr_ok, relabel.
  destruct (slog.Key x =? slog.LevelKey)%string eqn:Hk; [|reflexivity].
  apply String.eqb_eq in Hk.
  destruct (slog.Value x); try reflexivity.
  rewrite Hk. reflexivity.
Qed.

Lemma appendAttrs_New (a : loc) (l : list slog.Attr) :
  appendAttrs (slog.NewJSONHandler (New_options a)) l
  = if forallb level_attr_ok l then Some (written_attrs l) else None.
Proof.
  induction l as [|x rest IH]; [reflexivity|].
  cbn [appendAttrs forallb]. rewrite IH.
  unfold appendAttr; cbn [slog.opts New_options slog.opt_ReplaceAttr].
  rewrite ReplaceAttr_cases.
  destruct (level_attr_ok x); [|reflexivity]. cbn [andb].
  destruct (forallb level_attr_ok rest); reflexivity.
Qed.

(** The line the handler of [New] builds for a record, in full. *)
Lemma commonHandler_line_New (a : loc) (r : slog.Record_) :
  commonHandler_line (slog.NewJSONHandler (New_options a)) r
  = if forallb level_attr_ok (slog.Record_attrs r)
    then Some ((if slog.Record_Time r =? 0 then []
                else [slog.Time slog.TimeKey (slog.Record_Time r)])
               ++ [slog.String_ slog.LevelKey
                     (if slog.Record_Level r =? LevelTrace then "TRACE"%string
                      else slog.Level_String (slog.Record_Level r))]
               ++ source_member (slog.Record_PC r)
               ++ [slog.String_ slog.MessageKey (slog.Record_Message r)]
               ++ written_attrs (slog.Record_attrs r))
    else None.
Proof.
  unfold commonHandler_line. rewrite appendAttrs_New.
  cbn. destruct (slog.Record_Time r =? 0);
    destruct (forallb level_attr_ok (slog.Record_attrs r));
    destruct (slog.Record_PC r); reflexivity.
Qed.

Lemma written_app (tr1 tr2 : list Event) :
  written (tr1 ++ tr2) = written tr1 ++ written tr2.
Proof. unfold written. apply omap_app. Qed.

(** X9.  For arguments of the kinds of [any] (no group value, no
    [LogValuer]): an enabled call panics exactly when one of the
    attributes made from its arguments has the key "level" and a value
    that is not a [slog.Level].  The type assertion in [ReplaceAttr] is
    unchecked and the handler hands it the attributes of the caller too.
    The panic comes after the record reached the handler and before
    anything is written. *)
Theorem log_panics_iff_bad_level_attribute (E : Env) (w : World) (l : loc) (T L : Level)
    (ctx : option context.Context) (msg : string) (args : list any) (stk : list Frame) :
  has_threshold w l T -> T <= L ->
  let o := log E l ctx L msg args stk w in
  panicked o = negb (forallb level_attr_ok (slog.argsToAttrs args))
  /\ dispatched w o
  /\ (panicked o = true -> written (trace (world_of o)) = written (trace w)).
Proof.
  intros [a H] HL o. unfold o, dispatched.
  rewrite (log_enabled E w l a T L ctx msg args stk H HL).
  rewrite commonHandler_line_New. cbn [record_of slog.Record_attrs].
  destruct (forallb level_attr_ok (slog.argsToAttrs args));
    cbn [panicked negb world_of add_events trace];
    rewrite ?handled_app, ?written_app, ?length_app; cbn; rewrite ?app_nil_r.
  - split; [reflexivity|]. split; [lia|discriminate].
  - split; [reflexivity|]. split; [lia|reflexivity].
Qed.

Lemma log_panics_iff_bad_level_attribute_witness :
  let o := log quietEnv 1%positive None LevelWarn "hello"
               [AnyString "level"; AnyString "high"] mainStack infoWorld in
  panicked o
  = negb (forallb level_attr_ok (slog.argsToAttrs [AnyString "level"; AnyString "high"]))
  /\ dispatched infoWorld o
  /\ (panicked o = true -> written (trace (world_of o)) = written (trace infoWorld)).
Proof.
  apply (log_panics_iff_bad_level_attribute quietEnv infoWorld 1%positive LevelInfo LevelWarn).
  - exists 1%positive. split; reflexivity.
  - unfold LevelInfo, LevelWarn, slog.LevelInfo, slog.LevelWarn. lia.
Defined.

(** X10.  For arguments of the kinds of [any] (no group value, no
    [LogValuer]): an enabled call whose attributes are all accepted
    returns normally after writing exactly one line.  The line has the
    time, unless it is the zero time, then the level label, then the
    source, unless no program counter was captured, then the message, then
    the attributes of the arguments in their order, levels under the key
    "level" relabelled, empty attributes and sources without a program
    counter left out. *)
Theorem log_writes_one_line (E : Env) (w : World) (l : loc) (T L : Level)
    (ctx : option context.Context) (msg : string) (args : list any) (stk : list Frame) :
  has_threshold w l T -> T <= L ->
  forallb level_attr_ok (slog.argsToAttrs args) = true ->
  let o := log E l ctx L msg args stk w in
  let r := record_of E w L msg args stk in
  panicked o = false
  /\ written (trace (world_of o))
     = written (trace w)
       ++ [(if slog.Record_Time r =? 0 then []
            else [slog.Time slog.TimeKey (slog.Record_Time r)])
           ++ [slog.String_ slog.LevelKey
                 (if L =? LevelTrace then "TRACE"%string else slog.Level_String L)]
           ++ source_member (captured_pc stk)
           ++ [slog.String_ slog.MessageKey msg]
           ++ written_attrs (slog.argsToAttrs args)].
Proof.
  intros [a H] HL Hok o r. unfold o, r.
  rewrite (log_enabled E w l a T L ctx msg args stk H HL).
  rewrite commonHandler_line_New.
  cbn [record_of slog.Record_attrs slog.Record_Time slog.Record_Level
       slog.Record_PC slog.Record_Message].
  rewrite Hok. cbn [panicked world_of add_events trace].
  split; [reflexivity|].
  rewrite !written_app. cbn [written omap dispatch_events].
  cbn. rewrite app_nil_r. reflexivity.
Qed.

Lemma log_writes_one_line_witness :
  let E := quietEnv in
  let w := debugWorld in
  let args := [AnyString "level"; AnyLevel LevelTrace; AnyString "id"; AnyInt 7] in
  let stk := ["runtime.goexit"%string] in
  let o := log E 1%positive None LevelTrace "hello" args stk w in
  let r := record_of E w LevelTrace "hello" args stk in
  panicked o = false
  /\ written (trace (world_of o))
     = written (trace w)
       ++ [(if slog.Record_Time r =? 0 then []
            else [slog.Time slog.TimeKey (slog.Record_Time r)])
           ++ [slog.String_ slog.LevelKey
                 (if LevelTrace =? LevelTrace then "TRACE"%string
                  else slog.Level_String LevelTrace)]
           ++ source_member (captured_pc stk)
           ++ [slog.String_ slog.MessageKey "hello"]
           ++ written_attrs (slog.argsToAttrs args)].
Proof.
  apply (log_writes_one_line quietEnv debugWorld 1%positive LevelDebug LevelTrace).
  - exists 1%positive. split; reflexivity.
  - unfold LevelDebug, slog.LevelDebug, LevelTrace. lia.
  - reflexivity.
Defined.

(** A call of [Log] started with [go] has no frame to report: the line
    has no source member. *)
Example line_without_source :
  written (trace (world_of
     (Log quietEnv 1%positive None LevelInfo "tick" [] ["runtime.goexit"%string] infoWorld)))
  = [[slog.Time slog.TimeKey 2;
      slog.String_ slog.LevelKey "INFO";
      slog.String_ slog.MessageKey "tick"]].
Proof. vm_compute. reflexivity. Qed.

(** ** [Infof], enabled *)

(** X11.  An enabled [Infof] never panics, whatever its arguments: it
    formats once and dispatches one record at the Info level whose message
    is the formatted text and whose attribute list is empty; the arguments
    are used for the text only. *)
Theorem Infof_enabled_dispatch (E : Env) (w : World) (l : loc) (T : Level)
    (format : string) (args : list any) (stk : list Frame) :
  has_threshold w l T -> T <= LevelInfo ->
  exists w' r,
    Infof E l format args stk w = Ret tt w'
    /\ formatted (trace w') = formatted (trace w) ++ [(format, args)]
    /\ handled (trace w') = handled (trace w) ++ [(context.Background, r)]
    /\ slog.Record_Message r = fmt_Sprintf E format args
    /\ slog.Record_attrs r = []
    /\ slog.Record_Level r = LevelInfo
    /\ slog.Record_PC r = head stk.
Proof.
  intros [a H] HT.
  pose proof (logger_at_add_events w l a T [EvSprintf format args] H) as H1.
  eexists; eexists.
  change (Infof E l format args stk w)
    with (log E l (Some context.Background) LevelInfo (fmt_Sprintf E format args) []
              (frame_Log :: frame_Infof :: stk) (add_events w [EvSprintf format args])).
  rewrite (log_enabled E _ l a T LevelInfo _ _ _ _ H1 HT).
  rewrite commonHandler_line_New. cbn [record_of slog.Record_attrs slog.argsToAttrs forallb].
  split; [reflexivity|].
  cbn [add_events trace]. unfold formatted, handled. rewrite !omap_app. cbn.
  rewrite !app_nil_r.
  split; [reflexivity|]. split; [reflexivity|].
  split; [reflexivity|]. split; [reflexivity|]. split; [reflexivity|].
  destruct stk; reflexivity.
Qed.

Lemma Infof_enabled_dispatch_witness :
  exists w' r,
    Infof quietEnv 1%positive "%d items" [AnyInt 3] mainStack infoWorld = Ret tt w'
    /\ formatted (trace w') = formatted (trace infoWorld) ++ [("%d items"%string, [AnyInt 3])]
    /\ handled (trace w') = handled (trace infoWorld) ++ [(context.Background, r)]
    /\ slog.Record_Message r = fmt_Sprintf quietEnv "%d items" [AnyInt 3]
    /\ slog.Record_attrs r = []
    /\ slog.Record_Level r = LevelInfo
    /\ slog.Record_PC r = head mainStack.
Proof.
  apply (Infof_enabled_dispatch quietEnv infoWorld 1%positive LevelInfo).
  - exists 1%positive. split; reflexivity.
  - reflexivity.
Defined.

(** ** Context attachment, other keys *)

(** X12.  [WithContext] hides nothing but an earlier logger: every key
    other than the package's own, an [int] or a [string] of the same
    content included, is looked up in the returned context as in the
    parent; attaching a second logger on top replaces the first for the
    lookup and still keeps the other keys. *)
Theorem WithContext_keeps_other_keys (l : loc) (ctx : context.Context) (key : any)
    (w : World) :
  key <> defaultLogContextKey ->
  exists ctx',
    WithContext l (Some ctx) w = Ret ctx' w
    /\ context.Value ctx' key = context.Value ctx key
    /\ forall l2, exists ctx'',
         WithContext l2 (Some ctx') w = Ret ctx'' w
         /\ context.Value ctx'' defaultLogContextKey = AnySlogLogger l2
         /\ context.Value ctx'' key = context.Value ctx key.
Proof.
  intros Hkey.
  assert (defaultLogContextKey <> key) as Hkey' by (intros Heq; exact (Hkey (eq_sym Heq))).
  eexists. split; [reflexivity|]. split.
  - cbn. rewrite decide_False by exact Hkey'. reflexivity.
  - intros l2. eexists. split; [reflexivity|]. split.
    + cbn. rewrite decide_True by reflexivity. reflexivity.
    + cbn. rewrite !decide_False by exact Hkey'. reflexivity.
Qed.

Lemma WithContext_keeps_other_keys_witness :
  let ctx := context.valueCtx context.Background (AnyInt 0) (AnyString "request-7") in
  exists ctx',
    WithContext 1%positive (Some ctx) infoWorld = Ret ctx' infoWorld
    /\ context.Value ctx' (AnyInt 0) = context.Value ctx (AnyInt 0)
    /\ forall l2, exists ctx'',
         WithContext l2 (Some ctx') infoWorld = Ret ctx'' infoWorld
         /\ context.Value ctx'' defaultLogContextKey = AnySlogLogger l2
         /\ context.Value ctx'' (AnyInt 0) = context.Value ctx (AnyInt 0).
Proof.
  apply (WithContext_keeps_other_keys 1%positive
           (context.valueCtx context.Background (AnyInt 0) (AnyString "request-7"))
           (AnyInt 0) infoWorld).
  discriminate.
Defined.

(** ** Severity and threshold *)

(** X14.  Gating is monotone.  If a call at level [L] reaches the handler,
    then so does every call at a level at least [L], with any message,
    arguments and context; and it still does after the threshold is set
    to anything not above the current threshold. *)
Theorem gating_monotone (E : Env) (w : World) (l : loc) (T L : Level)
    (ctx : option context.Context) (msg : string) (args : list any) (stk : list Frame) :
  has_threshold w l T ->
  dispatched w (log E l ctx L msg args stk w) ->
  (forall L' ctx' msg' args' stk',
     L <= L' -> dispatched w (log E l ctx' L' msg' args' stk' w))
  /\ (forall T', T' <= T -> exists w',
        SetLevel l T' w = Ret tt w'
        /\ dispatched w' (log E l ctx L msg args stk w')).
Proof.
  intros [a H] Hd.
  assert (forall w0 T0 L0 c m ar st,
            logger_at w0 l a T0 -> T0 <= L0 ->
            dispatched w0 (log E l c L0 m ar st w0)) as Hen.
  { intros w0 T0 L0 c m ar st H0 HL0. unfold dispatched.
    rewrite (log_enabled E w0 l a T0 L0 c m ar st H0 HL0).
    destruct (commonHandler_line _ _); cbn [world_of add_events trace];
      rewrite ?handled_app, ?length_app; cbn; lia. }
  assert (T <= L) as HTL.
  { destruct (Z.lt_ge_cases L T) as [HL|HL]; [|exact HL].
    unfold dispatched in Hd.
    rewrite (log_disabled E w l a T L ctx msg args stk H HL) in Hd.
    cbn in Hd. lia. }
  split.
  - intros L' ctx' msg' args' stk' HL'. apply (Hen w T); [exact H|lia].
  - intros T' HT'. destruct (SetLevel_logger_at w l a T T' H) as [HS H'].
    eexists. split; [exact HS|]. apply (Hen _ T'); [exact H'|lia].
Qed.

Lemma gating_monotone_witness :
  (forall L' ctx' msg' args' stk',
     LevelWarn <= L' ->
     dispatched infoWorld (log quietEnv 1%positive ctx' L' msg' args' stk' infoWorld))
  /\ (forall T', T' <= LevelInfo -> exists w',
        SetLevel 1%positive T' infoWorld = Ret tt w'
        /\ dispatched w' (log quietEnv 1%positive None LevelWarn "hello" [] mainStack w')).
Proof.
  apply (gating_monotone quietEnv infoWorld 1%positive LevelInfo LevelWarn
           None "hello" [] mainStack).
  - exists 1%positive. split; reflexivity.
  - reflexivity.
Defined.

(** X15.  With the threshold above Error the logger is silent: [Info],
    [InfoContext], [Trace], [Warn] and [Error] return with the world as it
    was and [GetLogLevel] answers -10, while [Enabled] still answers
    true. *)
Theorem threshold_above_Error_silences (E : Env) (w : World) (l : loc) (T : Level)
    (ctx : option context.Context) (msg : string) (args : list any) (stk : list Frame) :
  has_threshold w l T -> LevelError < T ->
  Info E l msg args stk w = Ret tt w
  /\ InfoContext E l ctx msg args stk w = Ret tt w
  /\ Trace E l msg args stk w = Ret tt w
  /\ Warn E l msg args stk w = Ret tt w
  /\ Error E l msg args stk w = Ret tt w
  /\ GetLogLevel l w = Ret (-10) w
  /\ Enabled l w = Ret true w.
Proof.
  intros [a H] HT.
  unfold LevelError, slog.LevelError in HT.
  assert (forall c L m ar st, L <= 8 -> log E l c L m ar st w = Ret tt w) as Hoff.
  { intros c L m ar st HL. apply (log_disabled E w l a T); [exact H|lia]. }
  split; [apply Hoff; unfold LevelInfo, slog.LevelInfo; lia|].
  split; [apply Hoff; unfold LevelInfo, slog.LevelInfo; lia|].
  split; [apply Hoff; unfold LevelTrace; lia|].
  split; [apply Hoff; unfold LevelWarn, slog.LevelWarn; lia|].
  split; [apply Hoff; unfold LevelError, slog.LevelError; lia|].
  split; [|exact (Enabled_logger_at w l a T H)].
  rewrite (GetLogLevel_logger_at w l a T H). f_equal.
  unfold lowest_named, LevelIn, LevelDebug, LevelTrace, LevelInfo, LevelWarn,
    LevelError, slog.LevelDebug, slog.LevelInfo, slog.LevelWarn, slog.LevelError.
  rewrite !filter_cons, filter_nil.
  repeat case_decide; try lia. reflexivity.
Qed.

Lemma threshold_above_Error_silences_witness :
  let w := world_of (SetLevel 1%positive 12 infoWorld) in
  Info quietEnv 1%positive "m" [] mainStack w = Ret tt w
  /\ InfoContext quietEnv 1%positive None "m" [] mainStack w = Ret tt w
  /\ Trace quietEnv 1%positive "m" [] mainStack w = Ret tt w
  /\ Warn quietEnv 1%positive "m" [] mainStack w = Ret tt w
  /\ Error quietEnv 1%positive "m" [] mainStack w = Ret tt w
  /\ GetLogLevel 1%positive w = Ret (-10) w
  /\ Enabled 1%positive w = Ret true w.
Proof.
  apply (threshold_above_Error_silences quietEnv
           (world_of (SetLevel 1%positive 12 infoWorld)) 1%positive 12).
  - exists 1%positive. split; reflexivity.
  - reflexivity.
Defined.

(** ** Convenience methods and direct calls of [Log] *)






